(** * calculator-api: the calculator and the in-memory user store

    A shallow embedding of [calculator.py] (classes [Calculator] and
    [CalculatorUsers]) and of the handlers of [FastAPI_Rest.py] (the bodies
    of the route functions; routing, validation and serialisation belong to
    the framework), followed by the properties of the specification that
    concern them and by further properties of the code.

    Python values are modelled as follows.
    - [float] is IEEE 754 binary64, i.e. Rocq's primitive [float]; [+], [-],
      [*] and [/] on floats are the primitive operations (Python's float
      operators round to nearest-even and never raise, except [/] and [**]).
      Rocq's [float] has a single NaN: the sign and the payload of a NaN
      are not modelled.
    - [int] is [Z].
    - [str] is [string] (a literal holds the UTF-8 bytes of the source text).
    - a [dict] used as a record is a [gmap string value]; the dict [self.User]
      is a [gmap Z loc].
    - objects live in a heap and are passed by reference: a [dict] returned by
      a method is the same object as the one kept in the store.
    - [raise] is the [Error] result; a method of [CalculatorUsers] is a
      function from the state to a result and the state it leaves behind. *)

From Stdlib Require Import ZArith Floats.
From stdpp Require Import base option list gmap strings pretty.

Local Open Scope string_scope.
Local Open Scope Z_scope.

(** ** Exceptions *)

(** The exception classes that the modelled code raises or catches. All of
    them derive from [Exception]. *)
Inductive exn : Type :=
| ValueError (msg : string)
| ZeroDivisionError (msg : string)
| OverflowError (msg : string)
| KeyError (key : Z).

(** [str(e)]: the message for the exceptions built from one string, the
    representation of the key for a [KeyError]. *)
Definition str (e : exn) : string :=
  match e with
  | ValueError msg | ZeroDivisionError msg | OverflowError msg => msg
  | KeyError key => pretty key
  end.

(** [isinstance(e, ZeroDivisionError)], the test of [except ZeroDivisionError]. *)
Definition is_ZeroDivisionError (e : exn) : bool :=
  match e with
  | ZeroDivisionError _ => true
  | _ => false
  end.

Inductive result (A : Type) : Type :=
| Ok (a : A)
| Error (e : exn).
Arguments Ok {A} a.
Arguments Error {A} e.

Definition is_Ok {A} (r : result A) : Prop := ∃ a, r = Ok a.
Definition is_Error {A} (r : result A) : Prop := ∃ e, r = Error e.

Definition rbind {A B} (r : result A) (k : A → result B) : result B :=
  match r with
  | Ok a => k a
  | Error e => Error e
  end.

(** ** Python numbers *)

Inductive number : Type :=
| PyInt (z : Z)
| PyFloat (f : float).

(** [float(z)] for an [int]: the nearest binary64 value, ties to even;
    [OverflowError] when that value is not finite. *)
Definition int_to_float (z : Z) : result float :=
  let f := SF2Prim (binary_normalize prec emax z 0 false) in
  if is_infinity f then Error (OverflowError "int too large to convert to float")
  else Ok f.

Section IntPow.

(** The value of the interpreter's float power [x ** y] for a finite
    nonzero [x] and a finite negative integral [y]. It is computed by the
    platform's [pow] and is not fixed by the language; the interpreter
    does not raise there. *)
Variable float_pow : float → float → float.

(** [a ** b] on two [int]s: exact for a non-negative exponent; for a
    negative exponent both operands are converted to [float] and the float
    power is taken, with [ZeroDivisionError] on a zero base. *)
Definition int_pow (a b : Z) : result number :=
  if 0 <=? b then Ok (PyInt (a ^ b))
  else
    rbind (int_to_float a) (λ x,
    rbind (int_to_float b) (λ y,
      if (x =? 0)%float
      then Error (ZeroDivisionError "0.0 cannot be raised to a negative power")
      else Ok (PyFloat (float_pow x y)))).

End IntPow.

(** ** class Calculator *)

Module Calculator.

(** Sum two numbers *)
Definition sum (a b : float) : result float := Ok (a + b)%float.

(** Subtract two numbers *)
Definition substration (a b : float) : result float := Ok (a - b)%float.

(** Multiply a with b *)
Definition times (a b : float) : result float := Ok (a * b)%float.

(** Divide a with b; raises if b is zero *)
Definition division (a b : float) : result float :=
  if (b =? 0)%float
  then Error (ValueError "Divisão por zero não é permitido")
  else Ok (a / b)%float.

(** Raise a to power b. The parameters are annotated [int]; [float_pow] is
    the float power of the interpreter the method runs on. *)
Definition power (float_pow : float → float → float) (a b : Z) : result number :=
  int_pow float_pow a b.

End Calculator.

(** ** The divide handler of the HTTP layer *)

Inductive response : Type :=
| Result200 (result : float)
| HTTPException (status_code : Z) (detail : string).

(** [try: result = calc.division(a, b); return {"result": result}] with the
    handlers [except ZeroDivisionError] and then [except Exception as e]. *)
Definition api_divide (a b : float) : response :=
  match Calculator.division a b with
  | Ok result => Result200 result
  | Error e =>
      if is_ZeroDivisionError e
      then HTTPException 400 "Division by zero is not allowed"
      else HTTPException 400 ("Calculation error: " +:+ str e)
  end.

(** ** class CalculatorUsers *)

(** The values held by a user dict: an [int] or a [str]. *)
Inductive value : Type :=
| VInt (z : Z)
| VStr (s : string).

(** A reference to a dict object: its index in the heap. *)
Abbreviation loc := nat.

(** The dict objects allocated so far, and the attribute [self.User]
    (a dict from ids to references to user dicts). *)
Record state : Type := mkState {
  heap : list (gmap string value);
  User : gmap Z loc
}.

(** A method body: it runs in a state, returns or raises, and leaves a state. *)
Definition M (A : Type) : Type := state → result A * state.

Definition raise {A} (e : exn) : M A := λ σ, (Error e, σ).

#[global] Instance M_ret : MRet M := λ A a σ, (Ok a, σ).

#[global] Instance M_bind : MBind M := λ A B k m σ,
  match m σ with
  | (Ok a, σ') => k a σ'
  | (Error e, σ') => (Error e, σ')
  end.

Module CalculatorUsers.

(** [{...}]: a new dict object. *)
Definition new_dict (d : gmap string value) : M loc :=
  λ σ, (Ok (length (heap σ)), mkState (heap σ ++ [d]) (User σ)).

(** [d[key] = v] on the dict object at [d]. A Python reference always
    points to an object; on an index past the end of the heap, which
    [store_inv] below excludes, the heap is left as it is. *)
Definition dict_setitem (d : loc) (key : string) (v : value) : M unit :=
  λ σ, (Ok (), mkState (alter (insert key v) d (heap σ)) (User σ)).

(** [id in self.User] *)
Definition User_contains (id : Z) : M bool :=
  λ σ, (Ok (bool_decide (is_Some (User σ !! id))), σ).

(** [self.User[id]] *)
Definition User_getitem (id : Z) : M loc :=
  λ σ, match User σ !! id with
       | Some d => (Ok d, σ)
       | None => (Error (KeyError id), σ)
       end.

(** [self.User[id] = d] *)
Definition User_setitem (id : Z) (d : loc) : M unit :=
  λ σ, (Ok (), mkState (heap σ) (<[id := d]> (User σ))).

(** [del self.User[id]] *)
Definition User_delitem (id : Z) : M unit :=
  λ σ, match User σ !! id with
       | Some _ => (Ok (), mkState (heap σ) (delete id (User σ)))
       | None => (Error (KeyError id), σ)
       end.

(** [__init__]: no user; no dict object allocated yet. *)
Definition init : state := mkState [] ∅.

(** Create a User; raises if the id already exists. *)
Definition create (id : Z) (name : string) : M loc :=
  present ← User_contains id;
  if present : bool then raise (ValueError "ID already exist")
  else
    User ← new_dict {[ "id" := VInt id; "name" := VStr name ]};
    User_setitem id User;;
    mret User.

(** Return the User of an id; raises if it is not found. *)
Definition read (id : Z) : M loc :=
  present ← User_contains id;
  if negb present then raise (ValueError "User is not found")
  else User_getitem id.

(** Update the name of a User. *)
Definition update (id : Z) (new_name : string) : M loc :=
  present ← User_contains id;
  if negb present then raise (ValueError "User is not found")
  else
    d ← User_getitem id;
    dict_setitem d "name" (VStr new_name);;
    User_getitem id.

(** Remove a User. *)
Definition delete (id : Z) : M unit :=
  present ← User_contains id;
  if negb present then raise (ValueError "User is not found")
  else User_delitem id.

End CalculatorUsers.

(** The error conditions of the specification, as the code signals them. *)
Definition DivisionByZero : exn := ValueError "Divisão por zero não é permitido".
Definition DuplicateKey : exn := ValueError "ID already exist".
Definition NotFound : exn := ValueError "User is not found".

(** The record [{"id": id, "name": name}]. *)
Definition user_record (id : Z) (name : string) : gmap string value :=
  {[ "id" := VInt id; "name" := VStr name ]}.

(** The dict stored under [id], looked up through the heap. *)
Definition stored (σ : state) (id : Z) : option (gmap string value) :=
  d ← User σ !! id; heap σ !! d.

(** The dict that a caller receives from a method, as it is in the state
    the method leaves. *)
Definition returned (r : result loc * state) : option (gmap string value) :=
  match r.1 with
  | Ok d => heap r.2 !! d
  | Error _ => None
  end.

(** Calls on the store, and the states they lead to. A call that raises
    leaves whatever state it had reached. *)
Inductive call : Type :=
| Create (id : Z) (name : string)
| Read (id : Z)
| Update (id : Z) (new_name : string)
| Delete (id : Z).

Definition call_id (c : call) : Z :=
  match c with
  | Create id _ | Read id | Update id _ | Delete id => id
  end.

Definition exec (c : call) (σ : state) : state :=
  match c with
  | Create id name => (CalculatorUsers.create id name σ).2
  | Read id => (CalculatorUsers.read id σ).2
  | Update id new_name => (CalculatorUsers.update id new_name σ).2
  | Delete id => (CalculatorUsers.delete id σ).2
  end.

Fixpoint run (cs : list call) (σ : state) : state :=
  match cs with
  | [] => σ
  | c :: cs => run cs (exec c σ)
  end.

Inductive reachable : state → Prop :=
| reachable_init : reachable CalculatorUsers.init
| reachable_exec c σ : reachable σ → reachable (exec c σ).

(** The invariant of the store: the dict kept under [id] is allocated and is
    [{"id": id, "name": name}] for some [name]. *)
Definition store_inv (σ : state) : Prop :=
  ∀ id d, User σ !! id = Some d → ∃ name, heap σ !! d = Some (user_record id name).

(** ** The other handlers of the HTTP layer *)

(** [isinstance(e, ValueError)], the test of [except ValueError]. *)
Definition is_ValueError (e : exn) : bool :=
  match e with
  | ValueError _ => true
  | _ => false
  end.

(** What a call of a user handler does: it returns a value, raises an
    [HTTPException], or lets an exception through that its [except] clause
    does not catch. *)
Inductive outcome (A : Type) : Type :=
| Return (a : A)
| RaiseHTTPException (status_code : Z) (detail : string)
| Uncaught (e : exn).
Arguments Return {A} a.
Arguments RaiseHTTPException {A} status_code detail.
Arguments Uncaught {A} e.

(** [try: return m] followed by
    [except ValueError as e: raise HTTPException(status_code, detail=f"{prefix}{str(e)}")]. *)
Definition try_except_ValueError {A} (m : M A) (status_code : Z) (prefix : string)
  : state → outcome A * state :=
  λ σ, match m σ with
       | (Ok a, σ') => (Return a, σ')
       | (Error e, σ') =>
           if is_ValueError e
           then (RaiseHTTPException status_code (prefix +:+ str e), σ')
           else (Uncaught e, σ')
       end.

Module FastAPI_Rest.

(** The request body of the user routes. *)
Record UserModel : Type := mkUserModel { name : string }.

Definition api_sum (a b : float) : response :=
  match Calculator.sum a b with
  | Ok result => Result200 result
  | Error e => HTTPException 400 ("Calculation error: " +:+ str e)
  end.

Definition api_subtract (a b : float) : response :=
  match Calculator.substration a b with
  | Ok result => Result200 result
  | Error e => HTTPException 400 ("Calculation error: " +:+ str e)
  end.

(** The handlers below act on the module's one store [users_db], which is
    the state they run in. *)
Definition create_user (user_id : Z) (user : UserModel) : state → outcome loc * state :=
  try_except_ValueError (CalculatorUsers.create user_id (name user))
    400 "User creation failed: ".

Definition get_user (user_id : Z) : state → outcome loc * state :=
  try_except_ValueError (CalculatorUsers.read user_id) 404 "User not found: ".

Definition update_user (user_id : Z) (user : UserModel) : state → outcome loc * state :=
  try_except_ValueError (CalculatorUsers.update user_id (name user))
    404 "User update failed: ".

Definition delete_user (user_id : Z) : state → outcome (gmap string string) * state :=
  try_except_ValueError
    (CalculatorUsers.delete user_id;;
     mret ({[ "message" := "User successfully deleted" ]} : gmap string string))
    404 "User deletion failed: ".

End FastAPI_Rest.

(** The dict that a user handler hands to the framework, as it is when the
    handler returns. *)
Definition body (r : outcome loc * state) : option (gmap string value) :=
  match r.1 with
  | Return d => heap r.2 !! d
  | _ => None
  end.

(** The store as its callers see it: the record under each id. *)
Definition view (σ : state) : gmap Z (gmap string value) :=
  omap (λ d, heap σ !! d) (User σ).

(** What a call does to the records that callers see under each id. *)
Definition view_after (c : call) (v : gmap Z (gmap string value))
  : gmap Z (gmap string value) :=
  match c with
  | Create id name =>
      match v !! id with
      | None => <[id := user_record id name]> v
      | Some _ => v
      end
  | Read _ => v
  | Update id new_name =>
      match v !! id with
      | Some _ => <[id := user_record id new_name]> v
      | None => v
      end
  | Delete id => delete id v
  end.

(** Two float results agree when both are not a number, or when neither is
    and they are the same binary64 value. (The model has one NaN: the sign
    and the payload of a NaN are not modelled, so nothing is said of them.) *)
Definition agree (x y : float) : Prop :=
  (is_nan x = true ∧ is_nan y = true)
  ∨ (is_nan x = false ∧ is_nan y = false ∧ x = y).

(** * Properties *)

(** ** The equations of the four methods *)

Section Equations.

Import CalculatorUsers.

Ltac run_method H :=
  unfold create, read, update, delete, mbind, M_bind, mret, M_ret, raise,
    User_contains, User_getitem, User_setitem, User_delitem, new_dict,
    dict_setitem;
  cbn; rewrite ?H; cbn;
  repeat case_bool_decide; cbn; rewrite ?H;
  try done; try (exfalso; by eauto using is_Some_None).

Lemma create_absent σ id name :
  User σ !! id = None →
  create id name σ =
    (Ok (length (heap σ)),
     mkState (heap σ ++ [user_record id name]) (<[id := length (heap σ)]> (User σ))).
Proof.
  intros H. run_method H.
Qed.

Lemma create_present σ id name d :
  User σ !! id = Some d → create id name σ = (Error DuplicateKey, σ).
Proof. intros H. run_method H. Qed.

Lemma read_present σ id d :
  User σ !! id = Some d → read id σ = (Ok d, σ).
Proof. intros H. run_method H. Qed.

Lemma read_absent σ id :
  User σ !! id = None → read id σ = (Error NotFound, σ).
Proof. intros H. run_method H. Qed.

Lemma update_present σ id new_name d :
  User σ !! id = Some d →
  update id new_name σ =
    (Ok d, mkState (alter (insert "name" (VStr new_name)) d (heap σ)) (User σ)).
Proof. intros H. run_method H. Qed.

Lemma update_absent σ id new_name :
  User σ !! id = None → update id new_name σ = (Error NotFound, σ).
Proof. intros H. run_method H. Qed.

Lemma delete_present σ id d :
  User σ !! id = Some d →
  delete id σ = (Ok (), mkState (heap σ) (base.delete id (User σ))).
Proof. intros H. run_method H. Qed.

Lemma delete_absent σ id :
  User σ !! id = None → delete id σ = (Error NotFound, σ).
Proof. intros H. run_method H. Qed.

End Equations.

(** ** User records *)

Lemma user_record_id id name : user_record id name !! "id" = Some (VInt id).
Proof. done. Qed.

Lemma user_record_name id name : user_record id name !! "name" = Some (VStr name).
Proof. done. Qed.

Lemma user_record_rename id name new_name :
  <["name" := VStr new_name]> (user_record id name) = user_record id new_name.
Proof.
  unfold user_record. rewrite insert_insert_ne by done.
  by rewrite insert_singleton_eq.
Qed.

Lemma user_record_inj id1 name1 id2 name2 :
  user_record id1 name1 = user_record id2 name2 → id1 = id2 ∧ name1 = name2.
Proof.
  intros H. split.
  - assert (Some (VInt id1) = Some (VInt id2)) as [= ->]; [|done].
    by rewrite <- (user_record_id id1 name1), H.
  - assert (Some (VStr name1) = Some (VStr name2)) as [= ->]; [|done].
    by rewrite <- (user_record_name id1 name1), H.
Qed.

(** ** The states of the store *)

(** What a call does to the state, by presence of its id. *)
Lemma exec_create_absent σ id name :
  User σ !! id = None →
  exec (Create id name) σ =
    mkState (heap σ ++ [user_record id name]) (<[id := length (heap σ)]> (User σ)).
Proof. intros H. cbn. by rewrite create_absent. Qed.

Lemma exec_update_present σ id new_name d :
  User σ !! id = Some d →
  exec (Update id new_name) σ =
    mkState (alter (insert "name" (VStr new_name)) d (heap σ)) (User σ).
Proof. intros H. cbn. by erewrite update_present. Qed.

Lemma exec_delete_present σ id d :
  User σ !! id = Some d →
  exec (Delete id) σ = mkState (heap σ) (delete id (User σ)).
Proof. intros H. cbn. by erewrite delete_present. Qed.

Lemma exec_read σ id : exec (Read id) σ = σ.
Proof.
  cbn. destruct (User σ !! id) eqn:H.
  - by erewrite read_present.
  - by rewrite read_absent.
Qed.

Lemma exec_raises σ c :
  match c with
  | Create _ _ => is_Some (User σ !! call_id c)
  | _ => User σ !! call_id c = None
  end →
  exec c σ = σ.
Proof.
  destruct c; cbn.
  - intros [d H]. by erewrite create_present.
  - intros _. apply exec_read.
  - intros H. by rewrite update_absent.
  - intros H. by rewrite delete_absent.
Qed.

(** The case analysis used below: a call either leaves the state as it is,
    or it is a create of an absent id, or an update or delete of a present one. *)
Lemma exec_cases c σ :
  exec c σ = σ
  ∨ (∃ id name, c = Create id name ∧ User σ !! id = None)
  ∨ (∃ id new_name d, c = Update id new_name ∧ User σ !! id = Some d)
  ∨ (∃ id d, c = Delete id ∧ User σ !! id = Some d).
Proof.
  destruct c as [id name|id|id new_name|id]; destruct (User σ !! id) eqn:H.
  - left. apply exec_raises. cbn. by rewrite H.
  - right; left. eauto.
  - left. apply exec_read.
  - left. apply exec_read.
  - right; right; left. eauto 6.
  - left. by apply exec_raises.
  - right; right; right. eauto.
  - left. by apply exec_raises.
Qed.

Lemma store_inv_init : store_inv CalculatorUsers.init.
Proof. intros id d H. cbn in H. by rewrite lookup_empty in H. Qed.

Lemma store_inv_bound σ id d :
  store_inv σ → User σ !! id = Some d → (d < length (heap σ))%nat.
Proof.
  intros Hinv H. destruct (Hinv _ _ H) as [name Hd].
  by eapply lookup_lt_Some.
Qed.

Lemma store_inv_inj σ id1 id2 d :
  store_inv σ → User σ !! id1 = Some d → User σ !! id2 = Some d → id1 = id2.
Proof.
  intros Hinv H1 H2.
  destruct (Hinv _ _ H1) as [name1 Hd1], (Hinv _ _ H2) as [name2 Hd2].
  assert (user_record id1 name1 = user_record id2 name2) as Heq by congruence.
  by apply user_record_inj in Heq as [? _].
Qed.

Lemma store_inv_exec c σ : store_inv σ → store_inv (exec c σ).
Proof.
  intros Hinv.
  destruct (exec_cases c σ)
    as [->|[(id & name & -> & H)|[(id & new_name & d & -> & H)|(id & d & -> & H)]]];
    [done|..].
  - rewrite exec_create_absent by done. intros id' d' H'. cbn in *.
    destruct (decide (id' = id)) as [->|Hne].
    + rewrite lookup_insert_eq in H'. injection H' as <-. exists name.
      by rewrite lookup_app_r, Nat.sub_diag.
    + rewrite lookup_insert_ne in H' by done.
      destruct (Hinv _ _ H') as [name' Hd']. exists name'.
      by rewrite lookup_app_l by (by eapply lookup_lt_Some).
  - erewrite exec_update_present by done. intros id' d' H'. cbn in *.
    destruct (decide (d' = d)) as [->|Hne].
    + assert (id' = id) as -> by eauto using store_inv_inj.
      destruct (Hinv _ _ H) as [name Hd]. exists new_name.
      by rewrite list_lookup_alter_eq, Hd; cbn; rewrite user_record_rename.
    + destruct (Hinv _ _ H') as [name' Hd']. exists name'.
      by rewrite list_lookup_alter_ne.
  - erewrite exec_delete_present by done. intros id' d' H'. cbn in *.
    apply lookup_delete_Some in H' as [_ H']. eauto.
Qed.

Lemma reachable_store_inv σ : reachable σ → store_inv σ.
Proof. induction 1; auto using store_inv_init, store_inv_exec. Qed.

Lemma reachable_run cs σ : reachable σ → reachable (run cs σ).
Proof.
  revert σ. induction cs as [|c cs IH]; intros σ H; cbn; [done|].
  apply IH. by constructor.
Qed.

(** No call changes the ["id"] entry of a dict object, or frees the object. *)
Lemma exec_heap_id c σ d (r : gmap string value) :
  heap σ !! d = Some r →
  ∃ r', heap (exec c σ) !! d = Some r' ∧ r' !! "id" = r !! "id".
Proof.
  intros Hd.
  destruct (exec_cases c σ)
    as [->|[(id & name & -> & H)|[(id & new_name & d0 & -> & H)|(id & d0 & -> & H)]]];
    [by eauto|..].
  - rewrite exec_create_absent by done. exists r. cbn.
    by rewrite lookup_app_l by (by eapply lookup_lt_Some).
  - erewrite exec_update_present by done. cbn.
    destruct (decide (d = d0)) as [->|Hne].
    + exists (<["name" := VStr new_name]> r).
      rewrite list_lookup_alter_eq, Hd. split; [done|].
      by rewrite lookup_insert_ne.
    + exists r. by rewrite list_lookup_alter_ne.
  - erewrite exec_delete_present by done. eauto.
Qed.

Lemma run_heap_id cs σ d (r : gmap string value) :
  heap σ !! d = Some r →
  ∃ r', heap (run cs σ) !! d = Some r' ∧ r' !! "id" = r !! "id".
Proof.
  revert σ r. induction cs as [|c cs IH]; intros σ r Hd; cbn; [by eauto|].
  destruct (exec_heap_id c σ d r Hd) as (r1 & Hd1 & Hid1).
  destruct (IH _ _ Hd1) as (r2 & Hd2 & Hid2).
  exists r2. split; [done|]. by rewrite Hid2.
Qed.

(** ** Floats that are zero *)

(** The floats that are zero: [0.0] and [-0.0]. *)
Definition zero_float (b : float) : Prop := b = 0%float ∨ b = (-0)%float.

(** Python's [b == 0] on a float holds for the two zeros and for nothing else. *)
Lemma eqb_zero_spec (b : float) : (b =? 0)%float = true ↔ zero_float b.
Proof.
  split.
  - rewrite FloatAxioms.eqb_spec. intros H.
    destruct (Prim2SF b) as [[]| | |] eqn:E; try discriminate H.
    + right. by apply Prim2SF_inj.
    + left. by apply Prim2SF_inj.
    + by destruct s.
    + by destruct s.
  - by intros [->| ->].
Qed.

Lemma eqb_zero_false (b : float) : (b =? 0)%float = false ↔ ¬ zero_float b.
Proof. rewrite <- eqb_zero_spec. by destruct (b =? 0)%float. Qed.

(** ** Calculator *)

(** C1: for every [a] and every [b] that is not zero, [division a b] returns
    the quotient [a / b]; for a zero [b] it fails with the division-by-zero
    error; it fails if and only if the divisor is zero. *)
Theorem division_fails_iff_zero_divisor (a b : float) :
  (¬ zero_float b → Calculator.division a b = Ok (a / b)%float)
  ∧ (zero_float b → Calculator.division a b = Error DivisionByZero)
  ∧ (is_Error (Calculator.division a b) ↔ zero_float b).
Proof.
  rewrite <- eqb_zero_false, <- eqb_zero_spec. unfold Calculator.division.
  destruct (b =? 0)%float; repeat split; try done.
  - intros _. by eexists.
  - intros [e He]. discriminate He.
Qed.

Lemma division_fails_iff_zero_divisor_witness :
  Calculator.division 5 2 = Ok 2.5%float
  ∧ Calculator.division 10 0 = Error DivisionByZero
  ∧ is_Error (Calculator.division 10 (-0)).
Proof.
  split; [|split].
  - apply (division_fails_iff_zero_divisor 5 2).
    apply eqb_zero_false. reflexivity.
  - apply (division_fails_iff_zero_divisor 10 0). left. reflexivity.
  - apply (division_fails_iff_zero_divisor 10 (-0)). right. reflexivity.
Defined.

(** C2, as the code has it: [sum], [substration] and [times] return the
    float sum, difference and product and never fail; [power], on integers,
    returns the exact power for an exponent that is not negative and does
    not fail there. With a negative exponent both operands are converted to
    [float]: an operand that does not fit raises [OverflowError]; a zero
    base raises [ZeroDivisionError]; otherwise the result is the float
    power of the converted operands. *)
Theorem calculator_operations (float_pow : float → float → float) :
  (∀ a b, Calculator.sum a b = Ok (a + b)%float)
  ∧ (∀ a b, Calculator.substration a b = Ok (a - b)%float)
  ∧ (∀ a b, Calculator.times a b = Ok (a * b)%float)
  ∧ (∀ a b, 0 ≤ b → Calculator.power float_pow a b = Ok (PyInt (a ^ b)))
  ∧ (∀ b, b < 0 → is_Error (Calculator.power float_pow 0 b))
  ∧ (∀ a b x y,
       b < 0 → int_to_float a = Ok x → int_to_float b = Ok y →
       (¬ zero_float x →
          Calculator.power float_pow a b = Ok (PyFloat (float_pow x y)))
       ∧ (zero_float x →
          Calculator.power float_pow a b
          = Error (ZeroDivisionError "0.0 cannot be raised to a negative power")))
  ∧ (∀ a b e,
       b < 0 → int_to_float a = Error e →
       Calculator.power float_pow a b = Error e)
  ∧ (∀ a b x e,
       b < 0 → int_to_float a = Ok x → int_to_float b = Error e →
       Calculator.power float_pow a b = Error e).
Proof.
  repeat apply conj; try done.
  - intros a b Hb. unfold Calculator.power, int_pow.
    by rewrite (proj2 (Z.leb_le 0 b) Hb).
  - intros b Hb. unfold Calculator.power, int_pow.
    rewrite (proj2 (Z.leb_gt 0 b) Hb).
    change (int_to_float 0) with (Ok 0%float). cbn.
    destruct (int_to_float b); cbn; by eexists.
  - intros a b x y Hb Ha Hy. unfold Calculator.power, int_pow.
    rewrite (proj2 (Z.leb_gt 0 b) Hb), Ha, Hy. cbn. split.
    + intros Hx%eqb_zero_false. by rewrite Hx.
    + intros Hx%eqb_zero_spec. by rewrite Hx.
  - intros a b e Hb Ha. unfold Calculator.power, int_pow.
    by rewrite (proj2 (Z.leb_gt 0 b) Hb), Ha.
  - intros a b x e Hb Ha Hy. unfold Calculator.power, int_pow.
    by rewrite (proj2 (Z.leb_gt 0 b) Hb), Ha, Hy.
Qed.

Lemma calculator_operations_witness :
  Calculator.power PrimFloat.div 2 10 = Ok (PyInt 1024)
  ∧ is_Error (Calculator.power PrimFloat.div 0 (-1))
  ∧ Calculator.power PrimFloat.div 2 (-1) = Ok (PyFloat (PrimFloat.div 2 (-1)))
  ∧ Calculator.power PrimFloat.div (2 ^ 1024) (-1)
    = Error (OverflowError "int too large to convert to float").
Proof.
  pose proof (calculator_operations PrimFloat.div)
    as (_ & _ & _ & Hpos & Hzero & Hneg & Hover & _).
  split; [|split; [|split]].
  - by apply Hpos.
  - by apply Hzero.
  - apply (Hneg 2 (-1) 2%float (-1)%float); [done|by vm_compute..|].
    apply eqb_zero_false. reflexivity.
  - apply Hover; [done|by vm_compute].
Defined.

(** C2, as the specification has it, fails: [power] raises on base zero with
    a negative exponent, whatever the platform's float power is. *)
Lemma power_zero_negative_fails :
  (∀ float_pow,
     Calculator.power float_pow 0 (-1)
     = Error (ZeroDivisionError "0.0 cannot be raised to a negative power"))
  ∧ ¬ (∀ float_pow a b, is_Ok (Calculator.power float_pow a b)).
Proof.
  split; [done|].
  intros H. destruct (H PrimFloat.div 0 (-1)) as [v Hv]. discriminate Hv.
Qed.

(** C3: on a zero divisor the handler does not take its [ZeroDivisionError]
    branch: [division] raises a [ValueError], so the answer is the generic
    one. No input at all reaches the dedicated branch. *)
Theorem api_divide_zero_is_generic :
  api_divide 10 0
  = HTTPException 400 "Calculation error: Divisão por zero não é permitido"
  ∧ ∀ a b,
      api_divide a b = Result200 (a / b)%float
      ∨ api_divide a b
        = HTTPException 400 "Calculation error: Divisão por zero não é permitido".
Proof.
  split; [done|]. intros a b.
  unfold api_divide, Calculator.division.
  destruct (b =? 0)%float; auto.
Qed.

(** ** CalculatorUsers *)

Lemma stored_present σ id d :
  User σ !! id = Some d → stored σ id = heap σ !! d.
Proof. intros H. unfold stored. by rewrite H. Qed.

Lemma stored_absent σ id : User σ !! id = None → stored σ id = None.
Proof. intros H. unfold stored. by rewrite H. Qed.

(** C4: when [id] is absent, [create id name] succeeds, puts the record
    [{id, name}] under [id] and returns it, and a [read id] that follows
    returns the same record. *)
Theorem create_then_read σ id name :
  User σ !! id = None →
  ∃ d σ',
    CalculatorUsers.create id name σ = (Ok d, σ')
    ∧ User σ' = <[id := d]> (User σ)
    ∧ stored σ' id = Some (user_record id name)
    ∧ returned (CalculatorUsers.create id name σ) = Some (user_record id name)
    ∧ CalculatorUsers.read id σ' = (Ok d, σ')
    ∧ returned (CalculatorUsers.read id σ') = Some (user_record id name).
Proof.
  intros H. rewrite create_absent by done.
  set (σ' := mkState _ _). exists (length (heap σ)), σ'.
  assert (User σ' !! id = Some (length (heap σ))) as Hid
    by apply lookup_insert_eq.
  assert (heap σ' !! length (heap σ) = Some (user_record id name)) as Hd
    by (cbn; by rewrite lookup_app_r, Nat.sub_diag).
  rewrite (read_present _ _ _ Hid), (stored_present _ _ _ Hid).
  by repeat split.
Qed.

Lemma create_then_read_witness :
  ∃ d σ',
    CalculatorUsers.create 1 "John Doe" CalculatorUsers.init = (Ok d, σ')
    ∧ User σ' = <[1 := d]> (User CalculatorUsers.init)
    ∧ stored σ' 1 = Some (user_record 1 "John Doe")
    ∧ returned (CalculatorUsers.create 1 "John Doe" CalculatorUsers.init)
      = Some (user_record 1 "John Doe")
    ∧ CalculatorUsers.read 1 σ' = (Ok d, σ')
    ∧ returned (CalculatorUsers.read 1 σ') = Some (user_record 1 "John Doe").
Proof. apply (create_then_read CalculatorUsers.init 1 "John Doe"). reflexivity. Defined.

(** C5: [create] on an id that is present fails with the duplicate-key
    error, in particular right after a successful [create] of that id; it
    fails in no other case. *)
Theorem create_duplicate σ id name :
  (is_Some (User σ !! id) →
     CalculatorUsers.create id name σ = (Error DuplicateKey, σ))
  ∧ (∀ name0 d σ',
       CalculatorUsers.create id name0 σ = (Ok d, σ') →
       CalculatorUsers.create id name σ' = (Error DuplicateKey, σ'))
  ∧ (is_Error (CalculatorUsers.create id name σ).1 → is_Some (User σ !! id)).
Proof.
  split; [|split].
  - intros [d H]. by eapply create_present.
  - intros name0 d σ'. destruct (User σ !! id) as [d0|] eqn:H.
    + by erewrite create_present.
    + rewrite create_absent by done. intros [= <- <-].
      eapply create_present. apply lookup_insert_eq.
  - destruct (User σ !! id) as [d0|] eqn:H; [by eauto|].
    rewrite create_absent by done. intros [e He]. discriminate He.
Qed.

Lemma create_duplicate_witness :
  CalculatorUsers.create 1 "Jane Doe" (exec (Create 1 "John Doe") CalculatorUsers.init)
  = (Error DuplicateKey, exec (Create 1 "John Doe") CalculatorUsers.init).
Proof.
  apply (create_duplicate (exec (Create 1 "John Doe") CalculatorUsers.init) 1 "Jane Doe").
  by exists 0%nat.
Defined.

(** C6: on an absent id, [read], [update] and [delete] fail with the
    not-found error; on a present id, [read] returns the stored record,
    [update] succeeds, and [delete] succeeds and removes the entry, so that
    a [read] that follows fails with the not-found error. *)
Theorem absent_fails_present_succeeds σ id :
  (User σ !! id = None →
     CalculatorUsers.read id σ = (Error NotFound, σ)
     ∧ (∀ new_name, CalculatorUsers.update id new_name σ = (Error NotFound, σ))
     ∧ CalculatorUsers.delete id σ = (Error NotFound, σ))
  ∧ (∀ d, User σ !! id = Some d →
     CalculatorUsers.read id σ = (Ok d, σ)
     ∧ returned (CalculatorUsers.read id σ) = stored σ id
     ∧ (∀ new_name, ∃ σ', CalculatorUsers.update id new_name σ = (Ok d, σ'))
     ∧ ∃ σ', CalculatorUsers.delete id σ = (Ok (), σ')
         ∧ User σ' = delete id (User σ)
         ∧ User σ' !! id = None
         ∧ CalculatorUsers.read id σ' = (Error NotFound, σ')).
Proof.
  split.
  - intros H. rewrite read_absent, delete_absent by done.
    repeat split. intros new_name. by rewrite update_absent.
  - intros d H. rewrite (read_present _ _ _ H), (stored_present _ _ _ H).
    repeat split.
    + intros new_name. erewrite update_present by done. eauto.
    + erewrite delete_present by done. eexists. split; [done|].
      cbn. rewrite lookup_delete_eq. repeat split.
      apply read_absent. apply lookup_delete_eq.
Qed.

Lemma absent_fails_present_succeeds_witness :
  (CalculatorUsers.read 999 CalculatorUsers.init = (Error NotFound, CalculatorUsers.init)
   ∧ (∀ new_name,
        CalculatorUsers.update 999 new_name CalculatorUsers.init
        = (Error NotFound, CalculatorUsers.init))
   ∧ CalculatorUsers.delete 999 CalculatorUsers.init
     = (Error NotFound, CalculatorUsers.init))
  ∧ ∃ σ', CalculatorUsers.delete 1 (exec (Create 1 "John Doe") CalculatorUsers.init)
          = (Ok (), σ')
      ∧ CalculatorUsers.read 1 σ' = (Error NotFound, σ').
Proof.
  split.
  - apply (absent_fails_present_succeeds CalculatorUsers.init 999). reflexivity.
  - destruct (proj2 (absent_fails_present_succeeds
                       (exec (Create 1 "John Doe") CalculatorUsers.init) 1)
                    0%nat eq_refl)
      as (_ & _ & _ & σ' & Hdel & _ & _ & Hread).
    exists σ'. split; [exact Hdel | exact Hread].
Defined.

(** C7: on a present id, [update id new_name] changes the ["name"] entry
    of the stored dict object itself and returns that object; a [read id]
    that follows returns the record with the new name and the same id. In
    particular create(1, "John Doe"), update(1, "John Smith"), read(1)
    yields [{"id": 1, "name": "John Smith"}]. *)
Theorem update_in_place :
  (∀ σ id new_name d,
     reachable σ → User σ !! id = Some d →
     ∃ σ',
       CalculatorUsers.update id new_name σ = (Ok d, σ')
       ∧ User σ' = User σ
       ∧ length (heap σ') = length (heap σ)
       ∧ heap σ' !! d = insert "name" (VStr new_name) <$> heap σ !! d
       ∧ returned (CalculatorUsers.update id new_name σ)
         = Some (user_record id new_name)
       ∧ CalculatorUsers.read id σ' = (Ok d, σ')
       ∧ returned (CalculatorUsers.read id σ') = Some (user_record id new_name))
  ∧ returned ((CalculatorUsers.create 1 "John Doe";;
               CalculatorUsers.update 1 "John Smith";;
               CalculatorUsers.read 1) CalculatorUsers.init)
    = Some (user_record 1 "John Smith").
Proof.
  split; [|done].
  intros σ id new_name d Hreach H.
  destruct (reachable_store_inv _ Hreach _ _ H) as [name Hd].
  erewrite update_present by done. set (σ' := mkState _ _). exists σ'.
  assert (heap σ' !! d = Some (user_record id new_name)) as Hd'.
  { cbn. by rewrite list_lookup_alter_eq, Hd; cbn; rewrite user_record_rename. }
  assert (User σ' !! id = Some d) as Hid by done.
  rewrite (read_present _ _ _ Hid). repeat split; try done.
  - cbn. apply length_alter.
  - cbn. apply list_lookup_alter_eq.
Qed.

Lemma update_in_place_witness :
  ∃ σ',
    CalculatorUsers.update 1 "John Smith" (exec (Create 1 "John Doe") CalculatorUsers.init)
    = (Ok 0%nat, σ')
    ∧ returned (CalculatorUsers.read 1 σ') = Some (user_record 1 "John Smith").
Proof.
  destruct (proj1 update_in_place
              (exec (Create 1 "John Doe") CalculatorUsers.init) 1 "John Smith" 0%nat
              (reachable_exec _ _ reachable_init) eq_refl)
    as (σ' & Hupd & _ & _ & _ & _ & _ & Hread).
  exists σ'. split; [exact Hupd | exact Hread].
Defined.

(** C8: in every state reached from the empty store by calls of [create],
    [read], [update] and [delete], the dict stored under an id is a record
    whose ["id"] is that id; so no two stored records have the same id, and
    no two ids share a dict object; and no later call changes the ["id"] of
    a dict object. *)
Theorem store_invariant σ :
  reachable σ →
  (∀ id d, User σ !! id = Some d →
     ∃ name, stored σ id = Some (user_record id name))
  ∧ (∀ id r, stored σ id = Some r → r !! "id" = Some (VInt id))
  ∧ (∀ id1 id2 r1 r2,
       stored σ id1 = Some r1 → stored σ id2 = Some r2 →
       r1 !! "id" = r2 !! "id" → id1 = id2)
  ∧ (∀ id1 id2 d, User σ !! id1 = Some d → User σ !! id2 = Some d → id1 = id2)
  ∧ (∀ cs d r, heap σ !! d = Some r →
       ∃ r', heap (run cs σ) !! d = Some r' ∧ r' !! "id" = r !! "id").
Proof.
  intros Hinv%reachable_store_inv.
  assert (∀ id r, stored σ id = Some r → r !! "id" = Some (VInt id)) as Hid.
  { intros id r. unfold stored. destruct (User σ !! id) as [d|] eqn:H; [|done].
    cbn. destruct (Hinv _ _ H) as [name ->]. by intros [= <-]. }
  split; [|split; [done|split; [|split]]].
  - intros id d H. rewrite (stored_present _ _ _ H). eauto.
  - intros id1 id2 r1 r2 H1%Hid H2%Hid Heq. congruence.
  - intros id1 id2 d. by apply store_inv_inj.
  - intros cs d r. apply run_heap_id.
Qed.

Lemma store_invariant_witness :
  ∃ name,
    stored (run [Create 1 "John Doe"; Update 1 "John Smith"; Delete 2]
              CalculatorUsers.init) 1
    = Some (user_record 1 name).
Proof.
  apply (store_invariant
           (run [Create 1 "John Doe"; Update 1 "John Smith"; Delete 2]
              CalculatorUsers.init)
           (reachable_run _ _ reachable_init)) with (d := 0%nat).
  reflexivity.
Defined.

(** C9: a method that fails leaves the state as it was: [create] on a
    present id, and [read], [update] and [delete] on an absent id; and
    [read] leaves the state as it was also when it succeeds. *)
Theorem failure_leaves_state σ id name :
  (is_Some (User σ !! id) → (CalculatorUsers.create id name σ).2 = σ)
  ∧ (User σ !! id = None →
       (CalculatorUsers.read id σ).2 = σ
       ∧ (CalculatorUsers.update id name σ).2 = σ
       ∧ (CalculatorUsers.delete id σ).2 = σ)
  ∧ (is_Error (CalculatorUsers.create id name σ).1 →
       (CalculatorUsers.create id name σ).2 = σ)
  ∧ (is_Error (CalculatorUsers.read id σ).1 → (CalculatorUsers.read id σ).2 = σ)
  ∧ (is_Error (CalculatorUsers.update id name σ).1 →
       (CalculatorUsers.update id name σ).2 = σ)
  ∧ (is_Error (CalculatorUsers.delete id σ).1 →
       (CalculatorUsers.delete id σ).2 = σ)
  ∧ (CalculatorUsers.read id σ).2 = σ.
Proof.
  destruct (User σ !! id) as [d|] eqn:H.
  - erewrite create_present, read_present, update_present, delete_present by done.
    cbn. repeat split; try done; intros [e He]; discriminate He.
  - rewrite create_absent, read_absent, update_absent, delete_absent by done.
    cbn. repeat split; try done.
    intros [e He]. discriminate He.
Qed.

Lemma failure_leaves_state_witness :
  (CalculatorUsers.create 1 "Jane Doe" (exec (Create 1 "John Doe") CalculatorUsers.init)).2
  = exec (Create 1 "John Doe") CalculatorUsers.init
  ∧ (CalculatorUsers.delete 999 CalculatorUsers.init).2 = CalculatorUsers.init.
Proof.
  split.
  - apply (proj1 (failure_leaves_state
                    (exec (Create 1 "John Doe") CalculatorUsers.init) 1 "Jane Doe")).
    by exists 0%nat.
  - apply (proj1 (proj2 (failure_leaves_state CalculatorUsers.init 999 "John Smith"))).
    reflexivity.
Defined.

(** A call leaves the entries of the other ids as they were. *)
Lemma exec_frame c σ id :
  store_inv σ → id ≠ call_id c →
  User (exec c σ) !! id = User σ !! id ∧ stored (exec c σ) id = stored σ id.
Proof.
  intros Hinv Hne.
  destruct (exec_cases c σ)
    as [->|[(i & name & -> & H)|[(i & new_name & d & -> & H)|(i & d & -> & H)]]];
    [done|..]; cbn in Hne.
  - rewrite exec_create_absent by done. unfold stored; cbn.
    rewrite lookup_insert_ne by done. split; [done|].
    destruct (User σ !! id) as [d'|] eqn:H'; [cbn|done].
    apply lookup_app_l. by eapply store_inv_bound.
  - erewrite exec_update_present by done. unfold stored; cbn. split; [done|].
    destruct (User σ !! id) as [d'|] eqn:H'; [cbn|done].
    apply list_lookup_alter_ne. intros ->. apply Hne. by eapply store_inv_inj.
  - erewrite exec_delete_present by done. unfold stored; cbn.
    by rewrite lookup_delete_ne.
Qed.

(** C10: [create], [update] and [delete] on [id] leave every entry under
    another key as it was: the key stays present or absent, with the same
    dict object and the same contents. *)
Theorem other_keys_unchanged σ id name k :
  reachable σ → k ≠ id →
  let after_create := (CalculatorUsers.create id name σ).2 in
  let after_update := (CalculatorUsers.update id name σ).2 in
  let after_delete := (CalculatorUsers.delete id σ).2 in
  (User after_create !! k = User σ !! k ∧ stored after_create k = stored σ k)
  ∧ (User after_update !! k = User σ !! k ∧ stored after_update k = stored σ k)
  ∧ (User after_delete !! k = User σ !! k ∧ stored after_delete k = stored σ k).
Proof.
  intros Hinv%reachable_store_inv Hne. cbv zeta. split; [|split].
  - by apply (exec_frame (Create id name)).
  - by apply (exec_frame (Update id name)).
  - by apply (exec_frame (Delete id)).
Qed.

Lemma other_keys_unchanged_witness :
  stored (CalculatorUsers.update 2 "Jane Roe"
            (run [Create 1 "John Doe"; Create 2 "Jane Doe"] CalculatorUsers.init)).2 1
  = stored (run [Create 1 "John Doe"; Create 2 "Jane Doe"] CalculatorUsers.init) 1.
Proof.
  apply (other_keys_unchanged
           (run [Create 1 "John Doe"; Create 2 "Jane Doe"] CalculatorUsers.init)
           2 "Jane Roe" 1 (reachable_run _ _ reachable_init)).
  discriminate.
Defined.

(** ** The scenarios of the test suites *)

Example sum_5_3 : Calculator.sum 5 3 = Ok 8%float.
Proof. reflexivity. Qed.

Example substration_4_10 : Calculator.substration 4 10 = Ok (-6)%float.
Proof. reflexivity. Qed.

Example times_2_5_2_5 : Calculator.times 2.5 2.5 = Ok 6.25%float.
Proof. reflexivity. Qed.

Example division_5_2 : Calculator.division 5 2 = Ok 2.5%float.
Proof. reflexivity. Qed.

Example division_10_0 : Calculator.division 10 0 = Error DivisionByZero.
Proof. reflexivity. Qed.

(** The subtraction that the test suite compares approximately: the
    decimal literals are rounded to binary64 and the difference is not the
    float of [0.2]. *)
#[local] Set Warnings "-inexact-float".
Example substration_inexact :
  Calculator.substration 0.3 0.1 = Ok 0.19999999999999998%float
  ∧ (0.19999999999999998 =? 0.2)%float = false.
Proof. split; reflexivity. Qed.
#[local] Set Warnings "inexact-float".

Example int_to_float_largest :
  int_to_float (2 ^ 1024 - 2 ^ 970 - 1) = Ok 0x1.fffffffffffffp+1023%float.
Proof. vm_compute. reflexivity. Qed.

Example int_to_float_overflow : is_Error (int_to_float (2 ^ 1024 - 2 ^ 970)).
Proof. vm_compute. by eexists. Qed.

Example int_to_float_ties_to_even :
  int_to_float (2 ^ 53 + 1) = Ok 9007199254740992%float.
Proof. vm_compute. reflexivity. Qed.

Example delete_then_read :
  (CalculatorUsers.create 1 "John Doe";;
   CalculatorUsers.delete 1;;
   CalculatorUsers.read 1) CalculatorUsers.init
  = (Error NotFound, mkState [user_record 1 "John Doe"] ∅).
Proof. vm_compute. reflexivity. Qed.

(** * Further properties of the store *)

Lemma view_lookup σ id : view σ !! id = stored σ id.
Proof. unfold view, stored. by rewrite lookup_omap. Qed.

Lemma view_present σ id d :
  store_inv σ → User σ !! id = Some d → ∃ name, view σ !! id = Some (user_record id name).
Proof.
  intros Hinv H. destruct (Hinv _ _ H) as [name Hd]. exists name.
  by rewrite view_lookup, (stored_present _ _ _ H).
Qed.

Lemma view_absent σ id : User σ !! id = None → view σ !! id = None.
Proof. intros H. by rewrite view_lookup, stored_absent. Qed.

(** X1: the ids of the store after a call: [create] adds its id, [delete]
    removes its id, [read] and [update] leave the ids as they are; this
    holds whether the call returns or raises. *)
Theorem exec_dom c σ :
  dom (User (exec c σ)) =
    match c with
    | Create id _ => {[id]} ∪ dom (User σ)
    | Delete id => dom (User σ) ∖ {[id]}
    | Read _ | Update _ _ => dom (User σ)
    end.
Proof.
  destruct c as [id name|id|id new_name|id];
    destruct (User σ !! id) as [d|] eqn:Hlk.
  - rewrite exec_raises by (cbn; by rewrite Hlk).
    symmetry. apply subseteq_union_1_L, singleton_subseteq_l.
    by eapply elem_of_dom_2.
  - rewrite exec_create_absent by done. cbn. by rewrite dom_insert_L.
  - by rewrite exec_read.
  - by rewrite exec_read.
  - by erewrite exec_update_present.
  - by rewrite exec_raises.
  - erewrite exec_delete_present by done. cbn. by rewrite dom_delete_L.
  - rewrite exec_raises by done.
    symmetry. apply difference_disjoint_L, disjoint_singleton_r.
    by apply not_elem_of_dom.
Qed.

Lemma view_exec_inv c σ :
  store_inv σ → view (exec c σ) = view_after c (view σ).
Proof.
  intros Hinv. unfold view_after.
  assert (∀ k, k ≠ call_id c → view (exec c σ) !! k = view σ !! k) as Hframe.
  { intros k Hk. rewrite !view_lookup. by apply exec_frame. }
  assert (store_inv (exec c σ)) as Hinv' by by apply store_inv_exec.
  destruct c as [id name|id|id new_name|id]; cbn [call_id] in Hframe.
  - destruct (User σ !! id) as [d|] eqn:H.
    + destruct (view_present _ _ _ Hinv H) as [name0 ->].
      f_equal. apply exec_raises. cbn. by rewrite H.
    + rewrite (view_absent _ _ H). apply map_eq. intros k.
      destruct (decide (k = id)) as [->|Hk].
      * rewrite lookup_insert_eq, view_lookup, exec_create_absent by done.
        unfold stored; cbn. rewrite lookup_insert_eq; cbn.
        by rewrite lookup_app_r, Nat.sub_diag.
      * rewrite lookup_insert_ne by done. by apply Hframe.
  - by rewrite exec_read.
  - destruct (User σ !! id) as [d|] eqn:H.
    + destruct (view_present _ _ _ Hinv H) as [name0 Hv]. rewrite Hv.
      apply map_eq. intros k. destruct (decide (k = id)) as [->|Hk].
      * rewrite lookup_insert_eq, view_lookup.
        erewrite exec_update_present by done.
        unfold stored; cbn. rewrite H; cbn.
        rewrite view_lookup, (stored_present _ _ _ H) in Hv.
        by rewrite list_lookup_alter_eq, Hv; cbn; rewrite user_record_rename.
      * rewrite lookup_insert_ne by done. by apply Hframe.
    + rewrite (view_absent _ _ H). f_equal. by apply exec_raises.
  - apply map_eq. intros k. destruct (decide (k = id)) as [->|Hk].
    + rewrite lookup_delete_eq. destruct (User σ !! id) as [d|] eqn:H.
      * apply view_absent. erewrite exec_delete_present by done.
        cbn. apply lookup_delete_eq.
      * rewrite exec_raises by done. by apply view_absent.
    + rewrite lookup_delete_ne by done. by apply Hframe.
Qed.

(** X2: seen through the records under each id, the store of a reachable
    state is a finite map: [create] inserts [{id, name}] when the id is
    free, [update] replaces the record of a present id by [{id, new_name}],
    [delete] removes the id, and every other call changes nothing. *)
Theorem view_exec c σ :
  reachable σ →
  view (exec c σ) =
    match c with
    | Create id name =>
        match view σ !! id with
        | None => <[id := user_record id name]> (view σ)
        | Some _ => view σ
        end
    | Read _ => view σ
    | Update id new_name =>
        match view σ !! id with
        | Some _ => <[id := user_record id new_name]> (view σ)
        | None => view σ
        end
    | Delete id => delete id (view σ)
    end.
Proof. intros Hinv%reachable_store_inv. by apply view_exec_inv. Qed.

Lemma view_exec_witness :
  view (run [Create 1 "John Doe"; Create 2 "Jane Doe"; Update 1 "John Smith"; Delete 2]
          CalculatorUsers.init)
  = delete 2 (view (run [Create 1 "John Doe"; Create 2 "Jane Doe"; Update 1 "John Smith"]
                      CalculatorUsers.init)).
Proof.
  apply (view_exec (Delete 2)
           (run [Create 1 "John Doe"; Create 2 "Jane Doe"; Update 1 "John Smith"]
              CalculatorUsers.init)
           (reachable_run _ _ reachable_init)).
Defined.

(** X3: the last [update] wins: two updates of the same id in a row leave
    the state, and return the value, of the second one alone. *)
Theorem update_update σ id name1 name2 :
  CalculatorUsers.update id name2 (CalculatorUsers.update id name1 σ).2
  = CalculatorUsers.update id name2 σ.
Proof.
  destruct (User σ !! id) as [d|] eqn:H.
  - rewrite (update_present _ _ name1 _ H). cbn [snd].
    rewrite (update_present _ _ name2 d) by done.
    rewrite (update_present _ _ name2 _ H). cbn. do 2 f_equal.
    rewrite list_alter_alter_eq. apply list_alter_ext; [|done].
    intros r _. apply insert_insert_eq.
  - by rewrite (update_absent _ _ name1 H).
Qed.

(** X4: [delete] undoes [create] on the mapping: on a free id, [create]
    followed by [delete] gives back the mapping [self.User] it started
    from; the dict object made by [create] stays allocated, and in a
    reachable state every id has the record it had. *)
Theorem create_delete σ id name :
  User σ !! id = None →
  ∃ σ',
    CalculatorUsers.delete id (CalculatorUsers.create id name σ).2 = (Ok (), σ')
    ∧ User σ' = User σ
    ∧ heap σ' = (heap σ ++ [user_record id name])%list
    ∧ (reachable σ → view σ' = view σ).
Proof.
  intros H. rewrite create_absent by done. cbn [snd].
  erewrite delete_present by apply lookup_insert_eq. cbn.
  eexists. split; [reflexivity|]. cbn. rewrite (delete_insert_id _ _ _ H).
  repeat split. intros Hinv%reachable_store_inv.
  apply map_eq. intros k. unfold view; cbn. rewrite !lookup_omap.
  destruct (User σ !! k) as [d|] eqn:Hk; cbn; [|done].
  apply lookup_app_l. by eapply store_inv_bound.
Qed.

Lemma create_delete_witness :
  ∃ σ',
    CalculatorUsers.delete 1
      (CalculatorUsers.create 1 "John Doe" CalculatorUsers.init).2 = (Ok (), σ')
    ∧ User σ' = User CalculatorUsers.init
    ∧ heap σ' = (heap CalculatorUsers.init ++ [user_record 1 "John Doe"])%list
    ∧ (reachable CalculatorUsers.init → view σ' = view CalculatorUsers.init).
Proof. apply (create_delete CalculatorUsers.init 1 "John Doe"). reflexivity. Defined.

(** X5: an id can be used again after [delete]: in a reachable state with
    [id] present, [delete id] followed by [create id name] succeeds and
    stores [{id, name}] in a new dict object; the dict that was stored under
    [id] before is another object and keeps its contents. *)
Theorem delete_create σ id name d :
  reachable σ → User σ !! id = Some d →
  ∃ d' σ',
    CalculatorUsers.create id name (CalculatorUsers.delete id σ).2 = (Ok d', σ')
    ∧ d' ≠ d
    ∧ heap σ' !! d = heap σ !! d
    ∧ stored σ' id = Some (user_record id name).
Proof.
  intros Hinv%reachable_store_inv H.
  pose proof (store_inv_bound _ _ _ Hinv H) as Hlt.
  erewrite delete_present by done. cbn [snd].
  rewrite create_absent by apply lookup_delete_eq. cbn.
  eexists _, _. split; [reflexivity|]. cbn. split; [lia|]. split.
  - by apply lookup_app_l.
  - unfold stored; cbn. rewrite lookup_insert_eq; cbn.
    by rewrite lookup_app_r, Nat.sub_diag.
Qed.

Lemma delete_create_witness :
  ∃ d' σ',
    CalculatorUsers.create 1 "Jane Doe"
      (CalculatorUsers.delete 1 (exec (Create 1 "John Doe") CalculatorUsers.init)).2
    = (Ok d', σ')
    ∧ d' ≠ 0%nat
    ∧ heap σ' !! 0%nat = heap (exec (Create 1 "John Doe") CalculatorUsers.init) !! 0%nat
    ∧ stored σ' 1 = Some (user_record 1 "Jane Doe").
Proof.
  apply (delete_create (exec (Create 1 "John Doe") CalculatorUsers.init) 1 "Jane Doe" 0%nat).
  - apply reachable_exec, reachable_init.
  - reflexivity.
Defined.

(** X6: in a reachable state every dict object ever made by the store,
    stored or deleted, has exactly the entries ["id"] (an [int]) and
    ["name"] (a [str]). *)
Theorem heap_records σ d (r : gmap string value) :
  reachable σ → heap σ !! d = Some r → ∃ id name, r = user_record id name.
Proof.
  intros Hreach. revert d r.
  induction Hreach as [|c σ Hreach IH]; intros d r Hd; [done|].
  destruct (exec_cases c σ)
    as [Heq|[(id & name & -> & H)|[(id & new_name & d0 & -> & H)|(id & d0 & -> & H)]]].
  - rewrite Heq in Hd. eauto.
  - rewrite exec_create_absent in Hd by done. cbn in Hd.
    apply lookup_app_Some in Hd as [Hd|[_ Hd]]; [by eauto|].
    apply list_lookup_singleton_Some in Hd as [_ <-]. eauto.
  - erewrite exec_update_present in Hd by done. cbn in Hd.
    destruct (decide (d = d0)) as [->|Hne].
    + rewrite list_lookup_alter_eq in Hd.
      destruct (heap σ !! d0) as [r0|] eqn:Hd0; [|done].
      destruct (IH _ _ Hd0) as (i & n & ->). cbn in Hd.
      rewrite user_record_rename in Hd. injection Hd as <-. eauto.
    + rewrite list_lookup_alter_ne in Hd by done. eauto.
  - erewrite exec_delete_present in Hd by done. eauto.
Qed.

Lemma heap_records_witness :
  ∃ id name,
    user_record 1 "John Smith" = user_record id name.
Proof.
  apply (heap_records
           (run [Create 1 "John Doe"; Update 1 "John Smith"; Delete 1] CalculatorUsers.init)
           0%nat (user_record 1 "John Smith") (reachable_run _ _ reachable_init)).
  reflexivity.
Defined.

Lemma view_after_comm c1 c2 (v : gmap Z (gmap string value)) :
  call_id c1 ≠ call_id c2 →
  view_after c2 (view_after c1 v) = view_after c1 (view_after c2 v).
Proof.
  intros Hne.
  destruct (v !! call_id c1) eqn:E1, (v !! call_id c2) eqn:E2;
    destruct c1 as [i1 n1|i1|i1 n1|i1], c2 as [i2 n2|i2|i2 n2|i2];
    cbn in Hne, E1, E2; cbn [view_after];
    rewrite ?E1, ?E2;
    rewrite ?lookup_insert_ne, ?lookup_delete_ne by done;
    rewrite ?E1, ?E2;
    try done;
    first [ by apply insert_insert_ne
          | by apply delete_insert_ne
          | by symmetry; apply delete_insert_ne
          | apply delete_delete ].
Qed.

(** X15: calls on two different ids can be made in either order: in a
    reachable state, whichever of the two calls runs first, every id ends
    with the same record. *)
Theorem calls_commute c1 c2 σ :
  reachable σ → call_id c1 ≠ call_id c2 →
  view (exec c2 (exec c1 σ)) = view (exec c1 (exec c2 σ)).
Proof.
  intros Hinv%reachable_store_inv Hne.
  rewrite !view_exec_inv by auto using store_inv_exec.
  by apply view_after_comm.
Qed.

Lemma calls_commute_witness :
  view (exec (Delete 2) (exec (Update 1 "John Smith")
          (run [Create 1 "John Doe"; Create 2 "Jane Doe"] CalculatorUsers.init)))
  = view (exec (Update 1 "John Smith") (exec (Delete 2)
          (run [Create 1 "John Doe"; Create 2 "Jane Doe"] CalculatorUsers.init))).
Proof.
  apply (calls_commute (Update 1 "John Smith") (Delete 2)
           (run [Create 1 "John Doe"; Create 2 "Jane Doe"] CalculatorUsers.init)
           (reachable_run _ _ reachable_init)).
  discriminate.
Defined.

(** X16: the dict that [create] returns is the object that the store
    keeps: a caller that holds on to it sees the name that a later [update]
    of the id sets. *)
Theorem create_returns_stored_object σ id name new_name :
  User σ !! id = None →
  ∃ d σ1 σ2,
    CalculatorUsers.create id name σ = (Ok d, σ1)
    ∧ heap σ1 !! d = Some (user_record id name)
    ∧ CalculatorUsers.update id new_name σ1 = (Ok d, σ2)
    ∧ heap σ2 !! d = Some (user_record id new_name).
Proof.
  intros H. rewrite create_absent by done. eexists _, _, _.
  split; [reflexivity|]. cbn.
  assert ((heap σ ++ [user_record id name])%list !! length (heap σ)
          = Some (user_record id name)) as Hd
    by (by rewrite lookup_app_r, Nat.sub_diag).
  split; [done|].
  erewrite update_present by apply lookup_insert_eq. split; [reflexivity|].
  cbn. by rewrite list_lookup_alter_eq, Hd; cbn; rewrite user_record_rename.
Qed.

Lemma create_returns_stored_object_witness :
  ∃ d σ1 σ2,
    CalculatorUsers.create 1 "John Doe" CalculatorUsers.init = (Ok d, σ1)
    ∧ heap σ1 !! d = Some (user_record 1 "John Doe")
    ∧ CalculatorUsers.update 1 "John Smith" σ1 = (Ok d, σ2)
    ∧ heap σ2 !! d = Some (user_record 1 "John Smith").
Proof.
  apply (create_returns_stored_object CalculatorUsers.init 1 "John Doe" "John Smith").
  reflexivity.
Defined.

(** * Further properties of the HTTP layer *)

(** X7: [create_user] on an id that is present raises the [HTTPException]
    400 "User creation failed: ID already exist" and leaves the store as it
    was; on a free id it returns the new record [{user_id, user.name}],
    which a [get_user] that follows returns too. No exception of the store
    gets past the handler. *)
Theorem create_user_cases σ user_id user :
  (is_Some (User σ !! user_id) →
     FastAPI_Rest.create_user user_id user σ
     = (RaiseHTTPException 400 "User creation failed: ID already exist", σ))
  ∧ (User σ !! user_id = None →
     ∃ d σ',
       FastAPI_Rest.create_user user_id user σ = (Return d, σ')
       ∧ body (FastAPI_Rest.create_user user_id user σ)
         = Some (user_record user_id (FastAPI_Rest.name user))
       ∧ FastAPI_Rest.get_user user_id σ' = (Return d, σ')
       ∧ body (FastAPI_Rest.get_user user_id σ')
         = Some (user_record user_id (FastAPI_Rest.name user))).
Proof.
  unfold FastAPI_Rest.create_user, FastAPI_Rest.get_user, try_except_ValueError, body.
  split.
  - intros [d H]. by erewrite create_present.
  - intros H. rewrite create_absent by done. eexists _, _.
    split; [reflexivity|].
    erewrite read_present by apply lookup_insert_eq. cbn.
    by rewrite lookup_app_r, Nat.sub_diag.
Qed.

Lemma create_user_cases_witness :
  FastAPI_Rest.create_user 1 (FastAPI_Rest.mkUserModel "Jane Doe")
    (exec (Create 1 "John Doe") CalculatorUsers.init)
  = (RaiseHTTPException 400 "User creation failed: ID already exist",
     exec (Create 1 "John Doe") CalculatorUsers.init)
  ∧ ∃ d σ',
      FastAPI_Rest.create_user 1 (FastAPI_Rest.mkUserModel "John Doe") CalculatorUsers.init
      = (Return d, σ')
      ∧ body (FastAPI_Rest.get_user 1 σ') = Some (user_record 1 "John Doe").
Proof.
  split.
  - apply (proj1 (create_user_cases (exec (Create 1 "John Doe") CalculatorUsers.init)
                    1 (FastAPI_Rest.mkUserModel "Jane Doe"))).
    by exists 0%nat.
  - destruct (proj2 (create_user_cases CalculatorUsers.init
                       1 (FastAPI_Rest.mkUserModel "John Doe")) eq_refl)
      as (d & σ' & Hc & _ & _ & Hb).
    exists d, σ'. split; [exact Hc | exact Hb].
Defined.

(** X8: on an id that is absent, [get_user], [update_user] and
    [delete_user] raise the [HTTPException] 404, each with its own detail,
    and leave the store as it was; on a present id they return: [get_user]
    the stored dict without a change of state, [update_user] the stored dict
    with the ids of the store unchanged, [delete_user] its message with the
    id removed. No exception of the store gets past a handler. *)
Theorem user_handlers_cases σ user_id user :
  (User σ !! user_id = None →
     FastAPI_Rest.get_user user_id σ
     = (RaiseHTTPException 404 "User not found: User is not found", σ)
     ∧ FastAPI_Rest.update_user user_id user σ
       = (RaiseHTTPException 404 "User update failed: User is not found", σ)
     ∧ FastAPI_Rest.delete_user user_id σ
       = (RaiseHTTPException 404 "User deletion failed: User is not found", σ))
  ∧ (∀ d, User σ !! user_id = Some d →
     FastAPI_Rest.get_user user_id σ = (Return d, σ)
     ∧ (∃ σ', FastAPI_Rest.update_user user_id user σ = (Return d, σ')
              ∧ User σ' = User σ)
     ∧ ∃ σ', FastAPI_Rest.delete_user user_id σ
             = (Return {[ "message" := "User successfully deleted" ]}, σ')
         ∧ User σ' = delete user_id (User σ)).
Proof.
  unfold FastAPI_Rest.get_user, FastAPI_Rest.update_user, FastAPI_Rest.delete_user,
    try_except_ValueError, mbind, M_bind, mret, M_ret.
  split.
  - intros H. by rewrite read_absent, update_absent, delete_absent.
  - intros d H.
    rewrite (read_present _ _ _ H), (update_present _ _ _ _ H), (delete_present _ _ _ H).
    repeat split; by eexists.
Qed.

Lemma user_handlers_cases_witness :
  (FastAPI_Rest.get_user 999 CalculatorUsers.init
   = (RaiseHTTPException 404 "User not found: User is not found", CalculatorUsers.init)
   ∧ FastAPI_Rest.update_user 999 (FastAPI_Rest.mkUserModel "John Smith") CalculatorUsers.init
     = (RaiseHTTPException 404 "User update failed: User is not found", CalculatorUsers.init)
   ∧ FastAPI_Rest.delete_user 999 CalculatorUsers.init
     = (RaiseHTTPException 404 "User deletion failed: User is not found",
        CalculatorUsers.init))
  ∧ FastAPI_Rest.get_user 1 (exec (Create 1 "John Doe") CalculatorUsers.init)
    = (Return 0%nat, exec (Create 1 "John Doe") CalculatorUsers.init).
Proof.
  split.
  - apply (proj1 (user_handlers_cases CalculatorUsers.init 999
                    (FastAPI_Rest.mkUserModel "John Smith"))).
    reflexivity.
  - apply (proj2 (user_handlers_cases (exec (Create 1 "John Doe") CalculatorUsers.init)
                    1 (FastAPI_Rest.mkUserModel "John Smith")) 0%nat).
    reflexivity.
Defined.

(** X9: in a reachable state, the body of every answer of [get_user] and
    [update_user] on a present id is a record whose ["id"] is the id of the
    path; after [update_user] the record read back has the new name, and
    after [delete_user] a [get_user] of the id raises 404. *)
Theorem user_response_body σ user_id user d :
  reachable σ → User σ !! user_id = Some d →
  (∃ name, body (FastAPI_Rest.get_user user_id σ) = Some (user_record user_id name))
  ∧ body (FastAPI_Rest.update_user user_id user σ)
    = Some (user_record user_id (FastAPI_Rest.name user))
  ∧ body (FastAPI_Rest.get_user user_id (FastAPI_Rest.update_user user_id user σ).2)
    = Some (user_record user_id (FastAPI_Rest.name user))
  ∧ (FastAPI_Rest.get_user user_id (FastAPI_Rest.delete_user user_id σ).2).1
    = RaiseHTTPException 404 "User not found: User is not found".
Proof.
  intros Hinv%reachable_store_inv H. destruct (Hinv _ _ H) as [name Hd].
  unfold FastAPI_Rest.get_user, FastAPI_Rest.update_user, FastAPI_Rest.delete_user,
    try_except_ValueError, mbind, M_bind, mret, M_ret, body.
  rewrite (read_present _ _ _ H), (update_present _ _ _ _ H), (delete_present _ _ _ H).
  cbn [fst snd].
  erewrite read_present by exact H.
  rewrite read_absent by apply lookup_delete_eq. cbn.
  rewrite list_lookup_alter_eq, Hd. cbn. rewrite user_record_rename. eauto.
Qed.

Lemma user_response_body_witness :
  body (FastAPI_Rest.get_user 1
          (FastAPI_Rest.update_user 1 (FastAPI_Rest.mkUserModel "John Smith")
             (exec (Create 1 "John Doe") CalculatorUsers.init)).2)
  = Some (user_record 1 "John Smith").
Proof.
  apply (user_response_body (exec (Create 1 "John Doe") CalculatorUsers.init)
           1 (FastAPI_Rest.mkUserModel "John Smith") 0%nat).
  - apply reachable_exec, reachable_init.
  - reflexivity.
Defined.

(** X10: [api_sum] and [api_subtract] return the sum and the difference
    and never raise: their [except] branch is not reached. [api_divide]
    returns the quotient exactly when the divisor is not zero, and raises
    the [HTTPException] 400 exactly when it is. *)
Theorem calculator_handlers a b :
  FastAPI_Rest.api_sum a b = Result200 (a + b)%float
  ∧ FastAPI_Rest.api_subtract a b = Result200 (a - b)%float
  ∧ (api_divide a b = Result200 (a / b)%float ↔ ¬ zero_float b)
  ∧ (api_divide a b
     = HTTPException 400 "Calculation error: Divisão por zero não é permitido"
     ↔ zero_float b).
Proof.
  rewrite <- eqb_zero_false, <- eqb_zero_spec.
  unfold api_divide, Calculator.division.
  destruct (b =? 0)%float; cbn; repeat split; done.
Qed.

Lemma calculator_handlers_witness :
  api_divide 5 2 = Result200 2.5%float
  ∧ api_divide 10 (-0)
    = HTTPException 400 "Calculation error: Divisão por zero não é permitido".
Proof.
  split.
  - apply (proj2 (proj2 (calculator_handlers 5 2))).
    apply eqb_zero_false. reflexivity.
  - apply (proj2 (proj2 (calculator_handlers 10 (-0)))). right. reflexivity.
Defined.

(** * Further properties of the calculator *)

Lemma SFadd_comm x y : SF64add x y = SF64add y x.
Proof.
  unfold SF64add.
  destruct x as [sx|sx| |sx mx ex], y as [sy|sy| |sy my ey]; cbn;
    try (by destruct sx, sy); try done.
  by rewrite (Z.min_comm ey ex), Z.add_comm.
Qed.

Lemma SFmul_comm x y : SF64mul x y = SF64mul y x.
Proof.
  unfold SF64mul.
  destruct x as [sx|sx| |sx mx ex], y as [sy|sy| |sy my ey]; cbn;
    try (by destruct sx, sy); try done.
  by rewrite (xorb_comm sy sx), (Pos.mul_comm my mx), (Z.add_comm ey ex).
Qed.

Lemma SFsub_add_opp x y : SF64sub x y = SF64add x (SFopp y).
Proof.
  unfold SF64sub, SF64add.
  destruct x as [sx|sx| |sx mx ex], y as [sy|sy| |sy my ey]; cbn;
    try (by destruct sx, sy); done.
Qed.

Lemma Prim2SF_nan (x : float) : is_nan x = true → Prim2SF x = S754_nan.
Proof. intros H. unfold Prim2SF. by rewrite H. Qed.

Lemma agree_refl x : agree x x.
Proof. unfold agree. destruct (is_nan x); auto. Qed.

Lemma add_comm_float (a b : float) : (a + b)%float = (b + a)%float.
Proof. apply Prim2SF_inj. rewrite !add_spec. apply SFadd_comm. Qed.

Lemma mul_comm_float (a b : float) : (a * b)%float = (b * a)%float.
Proof. apply Prim2SF_inj. rewrite !mul_spec. apply SFmul_comm. Qed.

Lemma sub_add_opp_float (a b : float) : (a - b)%float = (a + - b)%float.
Proof.
  apply Prim2SF_inj. rewrite sub_spec, add_spec, opp_spec. apply SFsub_add_opp.
Qed.

(** X11: [sum] and [times] do not depend on the order of their arguments:
    both orders return, and the two results are both not a number, or they
    are the same binary64 value (rounded or infinite results included). *)
Theorem sum_times_commutative (a b : float) :
  (∃ r r', Calculator.sum a b = Ok r ∧ Calculator.sum b a = Ok r' ∧ agree r r')
  ∧ (∃ r r',
       Calculator.times a b = Ok r ∧ Calculator.times b a = Ok r' ∧ agree r r').
Proof.
  unfold Calculator.sum, Calculator.times. split; eexists _, _.
  - do 2 (split; [reflexivity|]). rewrite (add_comm_float a b). apply agree_refl.
  - do 2 (split; [reflexivity|]). rewrite (mul_comm_float a b). apply agree_refl.
Qed.

(** X12: [substration a b] and [sum] of [a] and the opposite of [b] both
    return, and the two results are both not a number, or they are the same
    binary64 value. *)
Theorem substration_is_sum_of_opposite (a b : float) :
  ∃ r r',
    Calculator.substration a b = Ok r
    ∧ Calculator.sum a (- b)%float = Ok r'
    ∧ agree r r'.
Proof.
  unfold Calculator.sum, Calculator.substration. eexists _, _.
  do 2 (split; [reflexivity|]). rewrite sub_add_opp_float. apply agree_refl.
Qed.

(** X13: a divisor that is not a number is not an error: [division]
    returns, and the result is not a number. The same holds when the
    dividend is not a number and the divisor is not zero. *)
Theorem division_nan (a b : float) :
  (is_nan b = true → Calculator.division a b = Ok nan)
  ∧ (is_nan a = true → ¬ zero_float b → Calculator.division a b = Ok nan).
Proof.
  assert (Prim2SF nan = S754_nan) as Hnan by reflexivity.
  unfold Calculator.division. split.
  - intros Hb%Prim2SF_nan.
    assert ((b =? 0)%float = false) as ->
      by (by rewrite FloatAxioms.eqb_spec, Hb).
    f_equal. apply Prim2SF_inj. rewrite div_spec, Hb, Hnan.
    by destruct (Prim2SF a).
  - intros Ha%Prim2SF_nan Hb%eqb_zero_false. rewrite Hb.
    f_equal. apply Prim2SF_inj. by rewrite div_spec, Ha, Hnan.
Qed.

Lemma division_nan_witness :
  Calculator.division 1 nan = Ok nan ∧ Calculator.division nan 2 = Ok nan.
Proof.
  split.
  - apply (proj1 (division_nan 1 nan)). reflexivity.
  - apply (proj2 (division_nan nan 2)); [reflexivity|].
    apply eqb_zero_false. reflexivity.
Defined.

(** X14: [power] returns an [int] exactly when the exponent is not negative
    (a negative exponent gives a float or an error, never an [int]);
    [power a 0] is 1 for every [a], zero included; and on exponents that
    are not negative, the power of a sum of exponents is the product of the
    powers. *)
Theorem power_int_result (float_pow : float → float → float) (a b c : Z) :
  ((∃ z, Calculator.power float_pow a b = Ok (PyInt z)) ↔ 0 ≤ b)
  ∧ Calculator.power float_pow a 0 = Ok (PyInt 1)
  ∧ (0 ≤ b → 0 ≤ c →
     Calculator.power float_pow a (b + c) = Ok (PyInt (a ^ b * a ^ c))).
Proof.
  unfold Calculator.power, int_pow. split; [|split].
  - destruct (Z.leb_spec 0 b) as [Hb|Hb].
    + split; [done|]. by eexists.
    + split; [|lia]. intros [z Hz]. exfalso.
      destruct (int_to_float a) as [x|]; cbn in Hz; [|done].
      destruct (int_to_float b) as [y|]; cbn in Hz; [|done].
      by destruct (x =? 0)%float.
  - done.
  - intros Hb Hc. rewrite (proj2 (Z.leb_le 0 (b + c))) by lia.
    by rewrite Z.pow_add_r.
Qed.

Lemma power_int_result_witness :
  Calculator.power PrimFloat.div 2 (3 + 4) = Ok (PyInt (2 ^ 3 * 2 ^ 4)).
Proof. apply (power_int_result PrimFloat.div 2 3 4); done. Defined.
